(** * Closeness vitality, parallel wrapper (nx_parallel/algorithms/vitality.py)

    A shallow embedding of [closeness_vitality] and of the collaborators it
    calls.  The function is embedded once, over an interface of the objects
    and library functions it uses; a small executable model of that interface
    is given afterwards and is used to run the function on concrete graphs. *)

From Stdlib Require Import Floats Uint63.
From stdpp Require Import gmap strings list.

#[local] Set Warnings "-register-all".

(** ** Python values and outcomes *)

(** The four classes tested by the [isinstance] chain (lines 65-72), in the
    order in which the source tests them. *)
Inductive wrapper : Type :=
| ParallelMultiDiGraph
| ParallelMultiGraph
| ParallelDiGraph
| ParallelGraph.

#[global] Instance wrapper_eq_dec : EqDecision wrapper.
Proof. solve_decision. Defined.

(** Exceptions that can leave the function. *)
Inductive exn : Type :=
| UnboundLocalError (name : string)   (* a local read before any assignment *)
| LibraryError (name : string)        (* raised inside a collaborator *)
| RecursionError.                     (* call depth exhausted *)

Inductive res (A : Type) : Type :=
| Ok (a : A)
| Raise (e : exn).
Arguments Ok {A} a.
Arguments Raise {A} e.

Definition res_map {A B} (f : A → B) (r : res A) : res B :=
  match r with
  | Ok a => Ok (f a)
  | Raise e => Raise e
  end.

(** The results of a list of tasks: the list of their values, or the first
    exception in the order given. *)
Fixpoint collect {A} (rs : list (res A)) : res (list A) :=
  match rs with
  | [] => Ok []
  | Ok a :: rs' => res_map (cons a) (collect rs')
  | Raise e :: _ => Raise e
  end.

(** [weight]: the name of an edge attribute, or [None]. *)
Definition Weight : Type := option string.

(** The two places where the source calls [nx.wiener_index]. *)
Inductive site : Type :=
| whole_graph     (* line 74: nx.wiener_index(I, weight=weight) *)
| node_removed.   (* line 76: nx.wiener_index(G.subgraph(...), weight=weight) *)

(** The order in which the results of a batch of parallel tasks are
    collected: some rearrangement of the order of submission. *)
Record arrival : Type := Arrival {
  arrive : ∀ A : Type, list A → list A;
  arrive_perm : ∀ (A : Type) (l : list A), arrive A l ≡ₚ l
}.

(** ** Collaborators

    Everything the function calls and that is not defined in vitality.py:
    the class test, the wrappers' [to_networkx], iteration over a graph,
    [G.subgraph] and [nx.wiener_index].  Each call can raise. *)
Class Collaborators : Type := {
  Node : Type;
  Node_eq_dec :: EqDecision Node;
  Node_countable :: Countable Node;
  Obj : Type;
  isinstance : Obj → wrapper → bool;
  to_networkx : wrapper → Obj → res Obj;
  iter : Obj → res (list Node);
  subgraph : Obj → gset Node → res Obj;
  nx_wiener_index : Obj → Weight → res float
}.

Section Vitality.
Context `{Collaborators}.

(** A graph is plain when none of the four class tests succeeds. *)
Definition is_plain (G : Obj) : bool :=
  negb (isinstance G ParallelMultiDiGraph) && negb (isinstance G ParallelMultiGraph)
  && negb (isinstance G ParallelDiGraph) && negb (isinstance G ParallelGraph).

(** *** Values returned and collaborator calls made *)

Inductive pyval : Type :=
| PyFloat (x : float)
| PyDict (items : list (Node * pyval)).

Inductive event : Type :=
| ToNetworkx (cls : wrapper) (G : Obj)
| WienerIndex (at_ : site) (g : Obj) (weight : Weight)
| Iter (g : Obj)
| Subgraph (g : Obj) (nodes : gset Node)
| Task (v : Node) (calls : list event).

(** A computation: the calls it made, in order, and its outcome. *)
Definition Py (A : Type) : Type := list event * res A.

#[global] Instance Py_ret : MRet Py := λ A a, ([], Ok a).
#[global] Instance Py_bind : MBind Py := λ A B f m,
  match m.2 with
  | Ok a => (m.1 ++ (f a).1, (f a).2)
  | Raise e => (m.1, Raise e)
  end.
#[global] Instance Py_throw : MThrow exn Py := λ A e, ([], Raise e).

Definition call {A} (e : event) (r : res A) : Py A := ([e], r).

(** Reading a local variable that the adapter may have left unbound. *)
Definition local (name : string) (x : option Obj) : Py Obj :=
  match x with
  | Some o => mret o
  | None => mthrow (UnboundLocalError name)
  end.

(** [dict(result)]: keys keep the position of their first occurrence, a later
    value for the same key replaces the earlier one. *)
Fixpoint dict_set {V} (d : list (Node * V)) (k : Node) (x : V) : list (Node * V) :=
  match d with
  | [] => [(k, x)]
  | (k', x') :: d' =>
      if decide (k' = k) then (k', x) :: d' else (k', x') :: dict_set d' k x
  end.

Definition dict {V} (items : list (Node * V)) : list (Node * V) :=
  foldl (λ d kx, dict_set d kx.1 kx.2) [] items.





(** A task of a batch is keyed when the pair it returns, if any, has the
    task's label as first component. *)
Definition keyed {A} (t : Node * Py (Node * A)) : Prop :=
  ∀ a, t.2.2 = Ok a → a.1 = t.1.

(** *** The source, line by line *)

Section Run.
Variable order : arrival.

(** [Parallel(n_jobs=-1)(tasks)]: every task of the batch is run; the results
    are gathered in arrival order; an exception in a task fails the batch. *)
Definition Parallel {A} (tasks : list (Node * Py A)) : Py (list A) :=
  let finished := arrive order _ tasks in
  (map (λ t, Task t.1 t.2.1) finished, collect (map (λ t, t.2.2) finished)).

(** Line 80: [delayed(lambda v: (v, vitality(v)))(v) for v in I], each task
    labelled with its node. *)
Definition delayed_tasks (vitality : Node → Py pyval) (nodes : list Node)
  : list (Node * Py (Node * pyval)) :=
  map (λ v, (v, x ← vitality v; mret (v, x))) nodes.

(** One of the four statements
    [if isinstance(G, C): I = C.to_networkx(G)] of lines 65-72. *)
Definition rebind (cls : wrapper) (G : Obj) (I : option Obj) : Py (option Obj) :=
  if isinstance G cls
  then I' ← call (ToNetworkx cls G) (to_networkx cls G); mret (Some I')
  else mret I.

(** Lines 65-72: the local [I] after the chain, [None] when never assigned. *)
Definition unwrap (G : Obj) : Py (option Obj) :=
  I ← rebind ParallelMultiDiGraph G None;
  I ← rebind ParallelMultiGraph G I;
  I ← rebind ParallelDiGraph G I;
  rebind ParallelGraph G I.

(** Lines 75-77. *)
Definition single_node (G : Obj) (v : Node) (weight : Weight) (wiener_index : float)
  : Py pyval :=
  nodes ← call (Iter G) (iter G);
  sub ← call (Subgraph G (list_to_set nodes ∖ {[v]}))
             (subgraph G (list_to_set nodes ∖ {[v]}));
  after ← call (WienerIndex node_removed sub weight) (nx_wiener_index sub weight);
  mret (PyFloat (wiener_index - after)%float).

(** Lines 73-74: the local [wiener_index] once the default is resolved. *)
Definition whole_graph_wiener_index (I : option Obj) (weight : Weight)
    (wiener_index : option float) : Py float :=
  match wiener_index with
  | None =>
      I ← local "I"%string I;
      call (WienerIndex whole_graph I weight) (nx_wiener_index I weight)
  | Some w => mret w
  end.

Fixpoint closeness_vitality_at (depth : nat) (G : Obj) (node : option Node)
    (weight : Weight) (wiener_index : option float) : Py pyval :=
  match depth with
  | 0 => mthrow RecursionError
  | S depth' =>
      I ← unwrap G;
      wiener_index ← whole_graph_wiener_index I weight wiener_index;
      match node with
      | Some v => single_node G v weight wiener_index
      | None =>
          I ← local "I"%string I;
          let vitality v :=
            closeness_vitality_at depth' I (Some v) weight (Some wiener_index) in
          nodes ← call (Iter I) (iter I);
          result ← Parallel (delayed_tasks vitality nodes);
          mret (PyDict (dict result))
      end
  end.

(** The function calls itself once per node, and those calls do not recurse:
    two frames are all it needs. *)
Definition closeness_vitality : Obj → option Node → Weight → option float → Py pyval :=
  closeness_vitality_at 2.

End Run.
End Vitality.

(** ** An executable model of the collaborators

    Simple undirected graphs over natural-number nodes, without edge
    attributes, with the library functions the source calls on them.  It is
    used to run [closeness_vitality] on concrete graphs.  The graphs of the
    model are undirected whatever class they are wrapped in; the statements
    below use it with the undirected classes only. *)
Module Model.

Record graph : Type := Graph {
  nodes : list nat;
  edges : list (nat * nat)
}.

Definition adjacent (g : graph) (u v : nat) : bool :=
  existsb (λ e, (e.1 =? u) && (e.2 =? v) || (e.1 =? v) && (e.2 =? u)) (edges g).

Definition neighbors (g : graph) (u : nat) : list nat :=
  List.filter (adjacent g u) (nodes g).

(** Breadth-first search by levels from [frontier], at distance [d] from the
    source: the sum of the distances of the nodes reached from here on, and
    the nodes seen. *)
Fixpoint bfs (fuel : nat) (g : graph) (seen frontier : list nat) (d : nat)
  : nat * list nat :=
  match fuel, frontier with
  | 0, _ | _, [] => (0, seen)
  | S fuel', _ =>
      let next :=
        remove_dups (List.filter (λ v, bool_decide (v ∉ seen))
                                 (flat_map (neighbors g) frontier)) in
      let r := bfs fuel' g (seen ++ next) next (S d) in
      (d * length frontier + r.1, r.2)
  end.

Definition distances_from (g : graph) (u : nat) : nat * list nat :=
  bfs (S (length (nodes g))) g [u] [u] 0.

(** [nx.is_connected]: networkx raises on the graph without nodes. *)
Definition is_connected (g : graph) : res bool :=
  match nodes g with
  | [] => Raise (LibraryError "NetworkXPointlessConcept")
  | u :: _ => Ok (length (distances_from g u).2 =? length (nodes g))
  end.

Definition float_of_nat (n : nat) : float :=
  PrimFloat.of_uint63 (Uint63.of_Z (Z.of_nat n)).

(** Modelled from the spec: [nx.wiener_index] belongs to networkx, not to
    the sources.  The sum of the shortest-path distances over all pairs of
    nodes (half the sum over ordered pairs); positive infinity, the distance
    of an unreachable pair, when the graph is not connected.  Without edge
    attributes every edge has length 1 under any [weight]. *)
Definition wiener_index (g : graph) : res float :=
  match is_connected g with
  | Raise e => Raise e
  | Ok false => Ok infinity
  | Ok true =>
      let total := list_sum (map (λ u, (distances_from g u).1) (nodes g)) in
      Ok (float_of_nat total / 2)%float
  end.

(** Modelled from the spec: [G.subgraph(nodes)] belongs to networkx.  The
    induced subgraph: the nodes of the subset and the edges with both
    endpoints in it. *)
Definition induced (g : graph) (keep : gset nat) : graph :=
  Graph (List.filter (λ v, bool_decide (v ∈ keep)) (nodes g))
        (List.filter (λ e, bool_decide (e.1 ∈ keep) && bool_decide (e.2 ∈ keep)) (edges g)).

(** Modelled from the spec: the wrapper classes of nx_parallel.classes.graph
    are missing from the sources.  A wrapped graph is a graph tagged with its
    class; [to_networkx] returns the plain graph underneath, and a wrapped
    graph iterates, subgraphs and measures like the graph it wraps. *)
Inductive obj : Type :=
| Plain (g : graph)
| Wrapped (cls : wrapper) (g : graph).

Definition graph_of (o : obj) : graph :=
  match o with
  | Plain g | Wrapped _ g => g
  end.

Definition with_graph (o : obj) (g : graph) : obj :=
  match o with
  | Plain _ => Plain g
  | Wrapped cls _ => Wrapped cls g
  end.

Definition instance_of (o : obj) (cls : wrapper) : bool :=
  match o with
  | Plain _ => false
  | Wrapped cls' _ => bool_decide (cls' = cls)
  end.

#[global] Instance collaborators : Collaborators := {|
  Node := nat;
  Obj := obj;
  isinstance := instance_of;
  to_networkx := λ _ o, Ok (Plain (graph_of o));
  iter := λ o, Ok (nodes (graph_of o));
  subgraph := λ o keep, Ok (with_graph o (induced (graph_of o) keep));
  nx_wiener_index := λ o _, wiener_index (graph_of o)
|}.

(** Results gathered in the order of submission, and in the opposite order. *)
Definition in_order : arrival := Arrival (λ _ l, l) (λ _ l, reflexivity l).
Definition reversed : arrival := Arrival (λ _ l, reverse l) (λ _ l, reverse_Permutation l).

(** [nx.cycle_graph(3)], a path on three nodes, and three isolated nodes. *)
Definition cycle3 : graph := Graph [0; 1; 2] [(0, 1); (0, 2); (1, 2)].
Definition path3 : graph := Graph [0; 1; 2] [(0, 1); (1, 2)].
Definition isolated3 : graph := Graph [0; 1; 2] [].

(** A single node, and the graph without nodes. *)
Definition single : graph := Graph [5] [].
Definition null : graph := Graph [] [].

(** The same collaborators with wrappers whose conversion raises. *)
Definition failing_conversion : Collaborators := {|
  Node := nat;
  Obj := obj;
  isinstance := instance_of;
  to_networkx := λ _ _, Raise (LibraryError "to_networkx");
  iter := λ o, Ok (nodes (graph_of o));
  subgraph := λ o keep, Ok (with_graph o (induced (graph_of o) keep));
  nx_wiener_index := λ o _, wiener_index (graph_of o)
|}.




(** The 3-cycle and the path without one node, and the Wiener index of the
    path without it. *)
Definition cycle3_without (v : nat) : obj :=
  Plain (induced cycle3 (list_to_set [0; 1; 2] ∖ {[v]})).
Definition path3_without (v : nat) : obj :=
  Plain (induced path3 (list_to_set [0; 1; 2] ∖ {[v]})).
Definition path3_after (v : nat) : float :=
  if v =? 1 then infinity else 1%float.

Definition two : pyval := PyFloat 2.
Definition three : pyval := PyFloat 3.

End Model.


(** * Properties *)

Section Monad_facts.
Context `{Collaborators}.

Lemma bind_ok {A B} (m : Py A) (f : A → Py B) t a :
  m = (t, Ok a) → m ≫= f = (t ++ (f a).1, (f a).2).
Proof. intros ->. reflexivity. Qed.

Lemma bind_raise {A B} (m : Py A) (f : A → Py B) t e :
  m = (t, Raise e) → m ≫= f = (t, Raise e).
Proof. intros ->. reflexivity. Qed.

Lemma bind_outcome {A B} (m : Py A) (f : A → Py B) :
  (m ≫= f).2 = match m.2 with Ok a => (f a).2 | Raise e => Raise e end.
Proof. destruct m as [t [a|e]]; reflexivity. Qed.

Lemma bind_calls {A B} (m : Py A) (f : A → Py B) :
  (m ≫= f).1 = m.1 ++ match m.2 with Ok a => (f a).1 | Raise e => [] end.
Proof. destruct m as [t [a|e]]; simpl; [reflexivity | by rewrite app_nil_r]. Qed.

End Monad_facts.

(** ** Arithmetic on the values returned *)

(** Subtracting infinity from a number other than infinity itself. *)
Lemma minus_infinity (w : float) :
  is_nan w = false → w ≠ infinity → (w - infinity)%float = neg_infinity.
Proof.
  unfold is_nan. rewrite FloatAxioms.eqb_spec.
  intros Hnan Hinf. apply Prim2SF_inj. rewrite FloatAxioms.sub_spec.
  destruct (Prim2SF w) as [s|[]| |s m e] eqn:E; try reflexivity.
  - destruct Hinf. apply Prim2SF_inj. by rewrite E.
  - discriminate Hnan.
Qed.

Lemma nan_is_not_neg_infinity : nan ≠ neg_infinity.
Proof. intros E. apply (f_equal is_nan) in E. discriminate E. Qed.

(** ** The adapter and the single-node branch *)

Section Adapter.
Context `{Collaborators}.
Variable order : arrival.

Lemma is_plain_spec (G : Obj) :
  is_plain G = true ↔ ∀ cls, isinstance G cls = false.
Proof.
  unfold is_plain. rewrite !andb_true_iff, !negb_true_iff. split.
  - intros [[[? ?] ?] ?] []; assumption.
  - intros Hall. repeat split; apply Hall.
Qed.

(** On a plain graph the chain of class tests assigns nothing and calls
    nothing: the local [I] stays unbound. *)
Lemma unwrap_plain (G : Obj) : is_plain G = true → unwrap G = ([], Ok None).
Proof.
  intros Hp. unfold unwrap, rebind.
  rewrite !(proj1 (is_plain_spec G) Hp). reflexivity.
Qed.

(** On a wrapper the local [I] is bound unless the conversion raises. *)
Lemma unwrap_bound (G : Obj) :
  is_plain G = false → ∀ I, (unwrap G).2 = Ok I → is_Some I.
Proof.
  unfold is_plain, unwrap, rebind, call, mbind, Py_bind, mret, Py_ret.
  intros Hp I.
  destruct (isinstance G ParallelMultiDiGraph), (isinstance G ParallelMultiGraph),
    (isinstance G ParallelDiGraph), (isinstance G ParallelGraph);
    try discriminate Hp; simpl;
    repeat (match goal with |- context [to_networkx ?c G] =>
              destruct (to_networkx c G); simpl end);
    intros [= <-] || discriminate; eauto.
Qed.

(** A call with a node and a Wiener index: the adapter, then lines 75-77. *)
Lemma single_node_call depth G v weight w :
  closeness_vitality_at order (S depth) G (Some v) weight (Some w)
  = unwrap G ≫= λ _, single_node G v weight w.
Proof.
  simpl. destruct (unwrap G) as [t [I|e]]; reflexivity.
Qed.

Lemma single_node_returns G v weight w nodes sub after :
  iter G = Ok nodes →
  subgraph G (list_to_set nodes ∖ {[v]}) = Ok sub →
  nx_wiener_index sub weight = Ok after →
  single_node G v weight w
  = ([Iter G; Subgraph G (list_to_set nodes ∖ {[v]}); WienerIndex node_removed sub weight],
     Ok (PyFloat (w - after)%float)).
Proof.
  intros Hn Hs Ha. unfold single_node.
  rewrite (bind_ok _ _ [Iter G] nodes) by (unfold call; by rewrite Hn).
  rewrite (bind_ok _ _ [Subgraph G (list_to_set nodes ∖ {[v]})] sub)
    by (unfold call; by rewrite Hs).
  rewrite (bind_ok _ _ [WienerIndex node_removed sub weight] after)
    by (unfold call; by rewrite Ha).
  reflexivity.
Qed.

(** A plain graph without both a node and a Wiener index: the first read of
    [I] (line 74, else line 78) finds it unbound. *)
Lemma plain_unbound G node weight wiener_index :
  is_plain G = true →
  node = None ∨ wiener_index = None →
  closeness_vitality order G node weight wiener_index
  = ([], Raise (UnboundLocalError "I")).
Proof.
  intros Hp Hshape. unfold closeness_vitality. simpl.
  rewrite (unwrap_plain G Hp).
  destruct wiener_index as [w|]; [|reflexivity].
  destruct Hshape as [-> | [=]]. reflexivity.
Qed.

End Adapter.

(** ** The mapping built by [dict] *)

Section Dict.
Context `{Collaborators}.
Context {V : Type}.
Implicit Types (d items : list (Node * V)) (k : Node) (x : V).

Lemma dict_set_keys d k x :
  (dict_set d k x).*1 = if decide (k ∈ d.*1) then d.*1 else d.*1 ++ [k].
Proof.
  induction d as [|[k' x'] d IH].
  - destruct (decide (k ∈ ([] : list (Node * V)).*1)) as [Hin|_]; [|reflexivity].
    by apply elem_of_nil in Hin.
  - change (((k', x') :: d).*1) with (k' :: d.*1). simpl dict_set.
    destruct (decide (k' = k)) as [->|Hne].
    + destruct (decide (k ∈ k :: d.*1)) as [_|Hout]; [reflexivity|].
      destruct Hout. apply list_elem_of_here.
    + change (((k', x') :: dict_set d k x).*1) with (k' :: (dict_set d k x).*1).
      rewrite IH.
      destruct (decide (k ∈ d.*1)) as [Hin|Hout],
               (decide (k ∈ k' :: d.*1)) as [Hin'|Hout']; try reflexivity.
      * destruct Hout'. by apply list_elem_of_further.
      * apply elem_of_cons in Hin' as [->|?]; [by destruct Hne | by destruct Hout].
Qed.

Lemma dict_set_NoDup d k x : NoDup d.*1 → NoDup (dict_set d k x).*1.
Proof.
  intros Hd. rewrite dict_set_keys. destruct (decide (k ∈ d.*1)); [assumption|].
  apply NoDup_app. split_and!; [assumption | | apply NoDup_singleton].
  intros k' Hin ->%list_elem_of_singleton. contradiction.
Qed.

Lemma dict_set_elem d k x k' :
  k' ∈ (dict_set d k x).*1 ↔ k' ∈ d.*1 ∨ k' = k.
Proof.
  rewrite dict_set_keys. destruct (decide (k ∈ d.*1)).
  - split; [by left | by intros [?| ->]].
  - rewrite elem_of_app, list_elem_of_singleton. reflexivity.
Qed.

Lemma dict_from d items :
  NoDup d.*1 →
  let d' := foldl (λ d kx, dict_set d kx.1 kx.2) d items in
  NoDup d'.*1 ∧ ∀ k, k ∈ d'.*1 ↔ k ∈ d.*1 ∨ k ∈ items.*1.
Proof.
  revert d. induction items as [|[k x] items IH]; intros d Hd; simpl.
  - split; [assumption|]. intros k. rewrite elem_of_nil. tauto.
  - destruct (IH (dict_set d k x) (dict_set_NoDup d k x Hd)) as [Hnd Hel].
    split; [assumption|]. intros k'.
    rewrite Hel, dict_set_elem, elem_of_cons. tauto.
Qed.

(** Every key of the items is a key of the mapping, once. *)
Lemma dict_keys items :
  NoDup (dict items).*1 ∧ ∀ k, k ∈ (dict items).*1 ↔ k ∈ items.*1.
Proof.
  destruct (dict_from [] items) as [Hnd Hel]; [apply NoDup_nil_2|].
  split; [exact Hnd|]. intros k. unfold dict. rewrite Hel.
  simpl. rewrite elem_of_nil. tauto.
Qed.

Lemma dict_set_fresh d k x : k ∉ d.*1 → dict_set d k x = d ++ [(k, x)].
Proof.
  induction d as [|[k' x'] d IH]; [reflexivity|].
  change (((k', x') :: d).*1) with (k' :: d.*1). rewrite not_elem_of_cons.
  intros [Hne Hout]. simpl.
  destruct (decide (k' = k)) as [->|_]; [done | by rewrite IH].
Qed.

Lemma dict_from_fresh d items :
  NoDup (d ++ items).*1 →
  foldl (λ d kx, dict_set d kx.1 kx.2) d items = d ++ items.
Proof.
  revert d. induction items as [|[k x] items IH]; intros d Hnd; simpl.
  - by rewrite app_nil_r.
  - rewrite dict_set_fresh.
    + rewrite IH; rewrite <- app_assoc; [reflexivity | exact Hnd].
    + rewrite fmap_app in Hnd. apply NoDup_app in Hnd as (_ & Hdisj & _).
      intros Hin. apply (Hdisj k Hin). apply list_elem_of_here.
Qed.

(** Items with distinct keys are kept as they are. *)
Lemma dict_distinct items : NoDup items.*1 → dict items = items.
Proof. intros Hnd. unfold dict. by rewrite dict_from_fresh. Qed.

End Dict.

(** ** The batch of per-node tasks *)

Section Batch.
Context `{Collaborators}.
Context {A : Type}.

Lemma collect_keys (finished : list (Node * Py (Node * A))) result :
  Forall keyed finished →
  collect (map (λ t, t.2.2) finished) = Ok result →
  result.*1 = finished.*1.
Proof.
  intros Hk. revert result.
  induction Hk as [|[v [calls [a|e]]] finished Ht _ IH]; intros result; simpl.
  - by intros [= <-].
  - destruct (collect _) as [rest|e]; simpl; [|by intros [=]].
    intros [= <-]. simpl. f_equal; [by apply Ht | by apply IH].
  - by intros [=].
Qed.

Lemma collect_all {T} (value : T → A) (outcome : T → res A) (finished : list T) :
  Forall (λ t, outcome t = Ok (value t)) finished →
  collect (map outcome finished) = Ok (map value finished).
Proof.
  induction 1 as [|t finished Ht _ IH]; [reflexivity|].
  simpl. by rewrite Ht, IH.
Qed.

Lemma collect_returns {T} (outcome : T → res A) (finished : list T) :
  Forall (λ t, ∃ a, outcome t = Ok a) finished →
  ∃ result, collect (map outcome finished) = Ok result.
Proof.
  induction 1 as [|t finished [a Ht] _ [rest IH]]; [by exists []|].
  exists (a :: rest). simpl. by rewrite Ht, IH.
Qed.

Lemma Parallel_keys order (tasks : list (Node * Py (Node * A))) result :
  Forall keyed tasks →
  (Parallel order tasks).2 = Ok result →
  result.*1 ≡ₚ tasks.*1.
Proof.
  intros Hk Hr. unfold Parallel in Hr. simpl in Hr.
  pose proof (arrive_perm order _ tasks) as Hperm.
  rewrite <- Hperm in Hk.
  rewrite (collect_keys _ _ Hk Hr). by rewrite Hperm.
Qed.

End Batch.

(** ** The two branches of the function *)

Section Branches.
Context `{Collaborators}.
Variable order : arrival.

Lemma all_nodes_call depth G weight wiener_index :
  closeness_vitality_at order (S depth) G None weight wiener_index
  = (I ← unwrap G;
     W ← whole_graph_wiener_index I weight wiener_index;
     I ← local "I" I;
     nodes ← call (Iter I) (iter I);
     result ← Parallel order
       (delayed_tasks
          (λ v, closeness_vitality_at order depth I (Some v) weight (Some W)) nodes);
     mret (PyDict (dict result))).
Proof. reflexivity. Qed.

Lemma tasks_keyed vitality nodes : Forall keyed (delayed_tasks vitality nodes).
Proof.
  apply Forall_forall. intros t [v [-> _]]%list_elem_of_fmap a. simpl.
  rewrite bind_outcome. destruct (vitality v).2; [|done].
  by intros [= <-].
Qed.

Lemma tasks_labels vitality nodes : (delayed_tasks vitality nodes).*1 = nodes.
Proof.
  unfold delayed_tasks. induction nodes as [|v nodes IH]; simpl; [done | by f_equal].
Qed.

(** What an all-nodes call returns is a mapping over the nodes of the
    unwrapped graph. *)
Lemma all_nodes_outcome depth G weight wiener_index r :
  (closeness_vitality_at order (S depth) G None weight wiener_index).2 = Ok r →
  ∃ I W nodes result,
    (unwrap G).2 = Ok (Some I) ∧
    (whole_graph_wiener_index (Some I) weight wiener_index).2 = Ok W ∧
    iter I = Ok nodes ∧
    (Parallel order
       (delayed_tasks
          (λ v, closeness_vitality_at order depth I (Some v) weight (Some W))
          nodes)).2 = Ok result ∧
    r = PyDict (dict result).
Proof.
  rewrite all_nodes_call, bind_outcome.
  destruct (unwrap G).2 as [I|e]; [|done].
  rewrite bind_outcome.
  destruct (whole_graph_wiener_index I weight wiener_index).2 as [W|e] eqn:HW; [|done].
  rewrite bind_outcome. destruct I as [I|]; [|done]. cbv beta iota.
  change (local "I" (Some I)).2 with (@Ok Obj I). cbv beta iota.
  rewrite bind_outcome.
  change (call (Iter I) (iter I)).2 with (iter I).
  destruct (iter I) as [nodes|e] eqn:Hn; [|done].
  rewrite bind_outcome.
  destruct (Parallel order _).2 as [result|e] eqn:Hp; [|done].
  intros [= <-]. by exists I, W, nodes, result.
Qed.

(** When the adapter binds [I], the Wiener index is resolved and every
    per-node call returns, the all-nodes call returns the mapping of each
    node to the value of its call, in arrival order. *)
Lemma all_nodes_returns depth G weight wiener_index I W nodes (x : Node → pyval) :
  (unwrap G).2 = Ok (Some I) →
  (whole_graph_wiener_index (Some I) weight wiener_index).2 = Ok W →
  iter I = Ok nodes →
  NoDup nodes →
  (∀ v, v ∈ nodes →
        (closeness_vitality_at order depth I (Some v) weight (Some W)).2 = Ok (x v)) →
  ∃ d, (closeness_vitality_at order (S depth) G None weight wiener_index).2
       = Ok (PyDict d)
       ∧ d ≡ₚ map (λ v, (v, x v)) nodes.
Proof.
  intros HI HW Hn Hnd Hx.
  set (tasks := delayed_tasks
    (λ v, closeness_vitality_at order depth I (Some v) weight (Some W)) nodes).
  set (value := λ t : Node * Py (Node * pyval), (t.1, x t.1)).
  assert (Forall (λ t, t.2.2 = Ok (value t)) tasks) as Hall.
  { apply Forall_forall. intros t [v [-> Hv]]%list_elem_of_fmap. cbn [fst snd].
    rewrite bind_outcome, (Hx v Hv). reflexivity. }
  pose proof (arrive_perm order _ tasks) as Hperm.
  rewrite <- Hperm in Hall.
  assert ((Parallel order tasks).2 = Ok (map value (arrive order _ tasks))) as Hp.
  { unfold Parallel. cbn [snd]. by apply (collect_all value (λ t, t.2.2)). }
  assert (map value (arrive order _ tasks) ≡ₚ map (λ v, (v, x v)) nodes) as Hres.
  { rewrite Hperm. unfold tasks, delayed_tasks. by rewrite map_map. }
  exists (map value (arrive order _ tasks)). split; [|exact Hres].
  rewrite all_nodes_call, bind_outcome, HI, bind_outcome, HW, bind_outcome.
  cbn [local mret Py_ret snd]. rewrite bind_outcome.
  change (call (Iter I) (iter I)).2 with (iter I). rewrite Hn.
  fold tasks. rewrite bind_outcome, Hp. cbn [mret Py_ret snd].
  rewrite dict_distinct; [reflexivity|].
  rewrite Hres, <- list_fmap_compose. by rewrite list_fmap_id.
Qed.

(** The same without a choice of values: the call returns as soon as every
    per-node call does. *)
Lemma all_nodes_completes depth G weight wiener_index I W nodes :
  (unwrap G).2 = Ok (Some I) →
  (whole_graph_wiener_index (Some I) weight wiener_index).2 = Ok W →
  iter I = Ok nodes →
  (∀ v, v ∈ nodes →
        ∃ x, (closeness_vitality_at order depth I (Some v) weight (Some W)).2 = Ok x) →
  ∃ r, (closeness_vitality_at order (S depth) G None weight wiener_index).2 = Ok r.
Proof.
  intros HI HW Hn Hx.
  set (tasks := delayed_tasks
    (λ v, closeness_vitality_at order depth I (Some v) weight (Some W)) nodes).
  assert (Forall (λ t : Node * Py (Node * pyval), ∃ a, t.2.2 = Ok a) tasks) as Hall.
  { apply Forall_forall. intros t [v [-> Hv]]%list_elem_of_fmap. cbn [fst snd].
    destruct (Hx v Hv) as [x Hxv]. exists (v, x). by rewrite bind_outcome, Hxv. }
  rewrite <- (arrive_perm order _ tasks) in Hall.
  destruct (collect_returns (λ t : Node * Py (Node * pyval), t.2.2) _ Hall)
    as [result Hp].
  assert ((Parallel order tasks).2 = Ok result) as Hpar by exact Hp.
  exists (PyDict (dict result)).
  rewrite all_nodes_call, bind_outcome, HI, bind_outcome, HW, bind_outcome.
  cbn [local mret Py_ret snd]. rewrite bind_outcome.
  change (call (Iter I) (iter I)).2 with (iter I). rewrite Hn.
  fold tasks. by rewrite bind_outcome, Hpar.
Qed.

End Branches.

(** ** Counting the computations of the whole-graph Wiener index *)

Section Counting.
Context `{Collaborators}.
Variable order : arrival.










End Counting.

(** ** Statements about the function *)

Section Statements.
Context `{Collaborators}.
Variable order : arrival.

(** Deeper call stacks change nothing: the per-node calls take the
    single-node branch and never call the function again. *)
Lemma depth_irrelevant depth G node weight wiener_index :
  closeness_vitality_at order (2 + depth) G node weight wiener_index
  = closeness_vitality order G node weight wiener_index.
Proof. reflexivity. Qed.

(** C1.  The adapter has no case for a plain graph.  For a graph that is an
    instance of none of the four wrapper classes the chain of class tests
    leaves the local [I] unbound, and a call that leaves out the Wiener index
    fails with an unbound-local error on [I]: the graph is not passed
    through. *)
Theorem plain_graph_not_passed_through G node weight :
  is_plain G = true →
  unwrap G = ([], Ok None)
  ∧ closeness_vitality order G node weight None = ([], Raise (UnboundLocalError "I")).
Proof.
  intros Hp. split; [by apply unwrap_plain|].
  apply plain_unbound; [assumption | by right].
Qed.

(** C2.  On an already-unwrapped graph [G], the call for a single node [v]
    with the whole-graph Wiener index [w] supplied returns [w] minus the
    Wiener index, for the same weight, of the subgraph of [G] induced by
    [set(G) - {v}]. *)
Theorem single_node_vitality G v weight w nodes sub after :
  is_plain G = true →
  iter G = Ok nodes →
  subgraph G (list_to_set nodes ∖ {[v]}) = Ok sub →
  nx_wiener_index sub weight = Ok after →
  (closeness_vitality order G (Some v) weight (Some w)).2
  = Ok (PyFloat (w - after)%float).
Proof.
  intros Hp Hn Hs Ha. unfold closeness_vitality.
  rewrite single_node_call, (unwrap_plain G Hp).
  rewrite (bind_ok _ _ [] None) by reflexivity.
  by rewrite (single_node_returns G v weight w nodes sub after).
Qed.

(** C4.  Whatever the order in which the per-node results arrive, the mapping
    returned by an all-nodes call has the nodes of the unwrapped graph as its
    keys: each of them once, and nothing else.  The call does return one as
    soon as the adapter binds [I], the Wiener index is resolved, [I] can be
    iterated and every per-node call returns. *)
Theorem all_nodes_key_set G weight wiener_index :
  (∀ r,
     (closeness_vitality order G None weight wiener_index).2 = Ok r →
     ∃ I nodes d,
       (unwrap G).2 = Ok (Some I) ∧ iter I = Ok nodes ∧ r = PyDict d
       ∧ NoDup d.*1 ∧ ∀ v, v ∈ d.*1 ↔ v ∈ nodes)
  ∧ (∀ I W nodes,
       (unwrap G).2 = Ok (Some I) →
       (whole_graph_wiener_index (Some I) weight wiener_index).2 = Ok W →
       iter I = Ok nodes →
       (∀ v, v ∈ nodes →
             ∃ x, (closeness_vitality order I (Some v) weight (Some W)).2 = Ok x) →
       ∃ r, (closeness_vitality order G None weight wiener_index).2 = Ok r).
Proof.
  split.
  - intros r (I & W & nodes & result & HI & _ & Hn & Hp & ->)%all_nodes_outcome.
    exists I, nodes, (dict result).
    destruct (dict_keys result) as [Hnd Hel].
    apply Parallel_keys in Hp; [|apply tasks_keyed]. rewrite tasks_labels in Hp.
    split_and!; try done. intros v. by rewrite Hel, Hp.
  - intros I W nodes HI HW Hn Hx.
    by apply (all_nodes_completes order 1 G weight wiener_index I W nodes).
Qed.

(** C10, as amended.  A plain graph is accepted under one argument shape
    only.  With a node and a Wiener index [w] the call never reads [I]: it
    makes the three calls of lines 75-77 and, when they return, returns [w]
    minus the Wiener index of the graph without the node; an exception raised
    by one of the three leaves the call as it is.  With either argument left
    out the call fails on the unbound local [I]. *)
Theorem plain_graph_accepted_shape G weight :
  is_plain G = true →
  (∀ v w nodes sub after,
     iter G = Ok nodes →
     subgraph G (list_to_set nodes ∖ {[v]}) = Ok sub →
     nx_wiener_index sub weight = Ok after →
     closeness_vitality order G (Some v) weight (Some w)
     = ([Iter G; Subgraph G (list_to_set nodes ∖ {[v]});
         WienerIndex node_removed sub weight],
        Ok (PyFloat (w - after)%float)))
  ∧ (∀ node wiener_index,
       node = None ∨ wiener_index = None →
       (closeness_vitality order G node weight wiener_index).2
       = Raise (UnboundLocalError "I"))
  ∧ (∀ v w,
       (closeness_vitality order G (Some v) weight (Some w)).2
       = match iter G with
         | Ok nodes =>
             match subgraph G (list_to_set nodes ∖ {[v]}) with
             | Ok sub =>
                 match nx_wiener_index sub weight with
                 | Ok after => Ok (PyFloat (w - after)%float)
                 | Raise e => Raise e
                 end
             | Raise e => Raise e
             end
         | Raise e => Raise e
         end).
Proof.
  intros Hp. split_and!.
  - intros v w nodes sub after Hn Hs Ha. unfold closeness_vitality.
    rewrite single_node_call, (unwrap_plain G Hp).
    rewrite (bind_ok _ _ [] None) by reflexivity.
    by rewrite (single_node_returns G v weight w nodes sub after).
  - intros node wiener_index Hshape. by rewrite plain_unbound.
  - intros v w. unfold closeness_vitality.
    rewrite single_node_call, (unwrap_plain G Hp).
    rewrite (bind_ok _ _ [] None) by reflexivity. cbn [snd].
    unfold single_node. rewrite bind_outcome.
    change (call (Iter G) (iter G)).2 with (iter G).
    destruct (iter G) as [nodes|e]; [|reflexivity].
    rewrite bind_outcome. change (call ?ev ?r).2 with r.
    destruct (subgraph G _) as [sub|e]; [|reflexivity].
    rewrite bind_outcome. change (call ?ev ?r).2 with r.
    by destruct (nx_wiener_index sub weight).
Qed.

(** A call with a node, whatever the Wiener index argument: the adapter, the
    resolution of the default, then lines 75-77. *)
Lemma node_call depth G v weight wiener_index :
  closeness_vitality_at order (S depth) G (Some v) weight wiener_index
  = (I ← unwrap G;
     W ← whole_graph_wiener_index I weight wiener_index;
     single_node G v weight W).
Proof. reflexivity. Qed.

(** X12.  When the Wiener index of [G] without [v] is infinite (the removal
    leaves some pair of nodes without a path) and the whole-graph Wiener index
    in use, the caller's or the one line 74 computes on the unwrapped graph,
    is a number other than positive infinity, the call for [v] returns
    negative infinity as an ordinary result. *)
Theorem disconnecting_node_vitality G v weight wiener_index I W nodes sub :
  (unwrap G).2 = Ok I →
  wiener_index = Some W
  ∨ (wiener_index = None ∧ ∃ I', I = Some I' ∧ nx_wiener_index I' weight = Ok W) →
  is_nan W = false →
  W ≠ infinity →
  iter G = Ok nodes →
  subgraph G (list_to_set nodes ∖ {[v]}) = Ok sub →
  nx_wiener_index sub weight = Ok infinity →
  (closeness_vitality order G (Some v) weight wiener_index).2
  = Ok (PyFloat neg_infinity).
Proof.
  intros HI HW Hnan Hinf Hn Hs Ha. unfold closeness_vitality.
  assert ((whole_graph_wiener_index I weight wiener_index).2 = Ok W) as HW'.
  { destruct HW as [-> | (-> & I' & -> & HW)]; [reflexivity|].
    cbn [whole_graph_wiener_index local]. by rewrite (bind_ok _ _ [] I'), HW. }
  rewrite node_call, bind_outcome, HI, bind_outcome, HW'.
  rewrite (single_node_returns G v weight W nodes sub infinity) by assumption.
  simpl. by rewrite minus_infinity.
Qed.

(** With the adapter's [I] bound, supplying the Wiener index that line 74
    would compute gives the outcome of leaving it out. *)
Lemma supplied_index_same_outcome G node weight I W :
  (unwrap G).2 = Ok (Some I) →
  nx_wiener_index I weight = Ok W →
  (closeness_vitality order G node weight (Some W)).2
  = (closeness_vitality order G node weight None).2.
Proof.
  intros HI HW. unfold closeness_vitality.
  destruct node as [v|].
  - rewrite !node_call, !bind_outcome, HI, !bind_outcome. simpl. by rewrite HW.
  - rewrite !all_nodes_call, !bind_outcome, HI, !bind_outcome. simpl. by rewrite HW.
Qed.

End Statements.

(** ** Runs on concrete graphs *)

Section Runs.
Import Model.

Example wiener_index_cycle3 : wiener_index cycle3 = Ok 3%float.
Proof. reflexivity. Qed.

Example wiener_index_path3 : wiener_index path3 = Ok 4%float.
Proof. reflexivity. Qed.

Example wiener_index_isolated3 : wiener_index isolated3 = Ok infinity.
Proof. reflexivity. Qed.

Example wiener_index_null : wiener_index (Graph [] [])
  = Raise (LibraryError "NetworkXPointlessConcept").
Proof. reflexivity. Qed.

(** The per-node calls on the unwrapped 3-cycle: 3.0 for the cycle, 1.0 for
    the edge that is left. *)
Lemma cycle3_node order (v : nat) :
  v ∈ [0; 1; 2] →
  (closeness_vitality order (Plain cycle3) (Some v) None (Some 3%float)).2 = Ok two.
Proof.
  rewrite !elem_of_cons, elem_of_nil.
  intros [->|[->|[->|[]]]]; vm_compute; reflexivity.
Qed.

(** C8.  On the plain 3-cycle [nx.cycle_graph(3)] the all-nodes call fails on
    the unbound local [I] instead of returning 2.0 for every node.  Wrapped
    in [ParallelGraph] the same graph gives 2.0 for each of its three nodes,
    in any arrival order. *)
Theorem cycle3_all_nodes order :
  closeness_vitality order (Plain cycle3) None None None
  = ([], Raise (UnboundLocalError "I"))
  ∧ ∃ d,
      (closeness_vitality order (Wrapped ParallelGraph cycle3) None None None).2
      = Ok (PyDict d)
      ∧ d ≡ₚ [(0, two); (1, two); (2, two)].
Proof.
  split; [reflexivity|].
  apply (all_nodes_returns (H := collaborators) order 1
           (Wrapped ParallelGraph cycle3) None None
           (Plain cycle3) 3%float [0; 1; 2] (λ _, two)).
  - reflexivity.
  - reflexivity.
  - reflexivity.
  - by apply (bool_decide_unpack (NoDup [0; 1; 2])).
  - intros v Hv. by apply (cycle3_node order).
Qed.

(** C3.  A wrapped graph and the plain graph it unwraps to do not give the
    same result: for the path 0 - 1 - 2 wrapped in [ParallelGraph] the
    all-nodes call returns a mapping, for the plain path it fails on the
    unbound local [I]. *)
Theorem wrapped_and_plain_differ :
  to_networkx ParallelGraph (Wrapped ParallelGraph path3) = Ok (Plain path3)
  ∧ (closeness_vitality in_order (Wrapped ParallelGraph path3) None None None).2
    = Ok (PyDict [(0, three); (1, PyFloat neg_infinity); (2, three)])
  ∧ (closeness_vitality in_order (Plain path3) None None None).2
    = Raise (UnboundLocalError "I").
Proof. split_and!; reflexivity. Qed.

(** C6.  On the plain 3-cycle, whose Wiener index is 3.0, the call for node 0
    returns 2.0 when 3.0 is supplied and fails on the unbound local [I] when
    the Wiener index is left out. *)
Theorem supplied_and_omitted_differ order :
  nx_wiener_index (Plain cycle3) None = Ok 3%float
  ∧ (closeness_vitality order (Plain cycle3) (Some 0) None (Some 3%float)).2 = Ok two
  ∧ (closeness_vitality order (Plain cycle3) (Some 0) None None).2
    = Raise (UnboundLocalError "I").
Proof. split_and!; reflexivity. Qed.

(** Three isolated nodes, wrapped, a graph that is not connected to begin
    with: removing node 0 leaves nodes 1 and 2 without a path between them,
    and the vitality returned for node 0 is not negative infinity but NaN,
    because the Wiener index of the whole graph is infinite as well. *)
Lemma isolated_nodes_vitality_is_nan :
  let G := Wrapped ParallelGraph isolated3 in
  iter G = Ok [0; 1; 2]
  ∧ subgraph G (list_to_set [0; 1; 2] ∖ {[0]}) = Ok (Wrapped ParallelGraph (Graph [1; 2] []))
  ∧ nx_wiener_index (Wrapped ParallelGraph (Graph [1; 2] [])) None = Ok infinity
  ∧ (closeness_vitality in_order G (Some 0) None None).2 = Ok (PyFloat nan)
  ∧ (closeness_vitality in_order G (Some 0) None None).2 ≠ Ok (PyFloat neg_infinity).
Proof.
  split_and!; [reflexivity..|].
  change (Ok (PyFloat nan) ≠ Ok (PyFloat neg_infinity)).
  intros E. apply nan_is_not_neg_infinity. congruence.
Qed.

(** C5.  The path 0 - 1 - 2 is connected and removing node 1 disconnects
    it.  As a plain graph, with the Wiener index left out, the call for node
    1 fails on the unbound local [I] instead of returning negative infinity;
    wrapped, or plain with the Wiener index 4.0 supplied, it returns negative
    infinity. *)
Theorem disconnecting_node_on_plain_graph order :
  is_connected path3 = Ok true
  ∧ subgraph (Plain path3) (list_to_set [0; 1; 2] ∖ {[1]}) = Ok (Plain (Graph [0; 2] []))
  ∧ is_connected (Graph [0; 2] []) = Ok false
  ∧ nx_wiener_index (Plain (Graph [0; 2] [])) None = Ok infinity
  ∧ (closeness_vitality order (Plain path3) (Some 1) None None).2
    = Raise (UnboundLocalError "I")
  ∧ (closeness_vitality order (Wrapped ParallelGraph path3) (Some 1) None None).2
    = Ok (PyFloat neg_infinity)
  ∧ (closeness_vitality order (Plain path3) (Some 1) None (Some 4%float)).2
    = Ok (PyFloat neg_infinity).
Proof. split_and!; reflexivity. Qed.

(** C10, as stated, fails.  A plain graph with one node, called with that
    node and a Wiener index: the graph without the node has no node left, and
    the call does not succeed, the exception of [nx.wiener_index] leaves it. *)
Lemma one_node_plain_graph_raises :
  is_plain (Plain single) = true
  ∧ iter (Plain single) = Ok [5]
  ∧ subgraph (Plain single) (list_to_set [5] ∖ {[5]}) = Ok (Plain null)
  ∧ (closeness_vitality in_order (Plain single) (Some 5) None (Some 0%float)).2
    = Raise (LibraryError "NetworkXPointlessConcept").
Proof. split_and!; reflexivity. Qed.

(** *** The general statements at concrete graphs *)

Lemma plain_graph_not_passed_through_witness :
  is_plain (Plain cycle3) = true
  ∧ unwrap (Plain cycle3) = ([], Ok None)
  ∧ closeness_vitality in_order (Plain cycle3) None None None
    = ([], Raise (UnboundLocalError "I")).
Proof.
  split; [reflexivity|].
  apply (plain_graph_not_passed_through (H := collaborators) in_order
           (Plain cycle3) None None).
  reflexivity.
Defined.

Lemma single_node_vitality_witness :
  let sub := Plain (Graph [1; 2] [(1, 2)]) in
  is_plain (Plain cycle3) = true
  ∧ iter (Plain cycle3) = Ok [0; 1; 2]
  ∧ subgraph (Plain cycle3) (list_to_set [0; 1; 2] ∖ {[0]}) = Ok sub
  ∧ nx_wiener_index sub None = Ok 1%float
  ∧ (closeness_vitality in_order (Plain cycle3) (Some 0) None (Some 3%float)).2
    = Ok (PyFloat (3 - 1)%float).
Proof.
  split_and!; [reflexivity..|].
  apply (single_node_vitality (H := collaborators) in_order (Plain cycle3) 0 None
           3%float [0; 1; 2] (Plain (Graph [1; 2] [(1, 2)])) 1%float);
    reflexivity.
Defined.

Lemma all_nodes_key_set_witness :
  let G := Wrapped ParallelGraph cycle3 in
  let r := PyDict [(0, two); (1, two); (2, two)] in
  (closeness_vitality in_order G None None None).2 = Ok r
  ∧ ∃ I nodes d,
      (unwrap G).2 = Ok (Some I) ∧ iter I = Ok nodes ∧ r = PyDict d
      ∧ NoDup d.*1 ∧ ∀ v, v ∈ d.*1 ↔ v ∈ nodes.
Proof.
  split; [reflexivity|].
  apply (proj1 (all_nodes_key_set (H := collaborators) in_order
                  (Wrapped ParallelGraph cycle3) None None)).
  reflexivity.
Defined.

Lemma disconnecting_node_vitality_witness :
  let G := Wrapped ParallelGraph path3 in
  let sub := Wrapped ParallelGraph (Graph [0; 2] []) in
  (unwrap G).2 = Ok (Some (Plain path3))
  ∧ ((None : option float) = Some 4%float
     ∨ ((None : option float) = None
        ∧ ∃ I', Some (Plain path3) = Some I' ∧ nx_wiener_index I' None = Ok 4%float))
  ∧ is_nan 4 = false
  ∧ 4%float ≠ infinity
  ∧ iter G = Ok [0; 1; 2]
  ∧ subgraph G (list_to_set [0; 1; 2] ∖ {[1]}) = Ok sub
  ∧ nx_wiener_index sub None = Ok infinity
  ∧ (closeness_vitality in_order G (Some 1) None None).2 = Ok (PyFloat neg_infinity).
Proof.
  assert (4%float ≠ infinity) as Hfour.
  { intros E. apply (f_equal is_infinity) in E. discriminate E. }
  assert ((None : option float) = Some 4%float
          ∨ ((None : option float) = None
             ∧ ∃ I', Some (Plain path3) = Some I'
                     ∧ nx_wiener_index I' None = Ok 4%float)) as Hindex.
  { right. split; [reflexivity|]. by exists (Plain path3). }
  split_and!.
  1, 3, 5-7: reflexivity.
  1: exact Hindex.
  1: exact Hfour.
  apply (disconnecting_node_vitality (H := collaborators) in_order
           (Wrapped ParallelGraph path3) 1 None None (Some (Plain path3)) 4%float
           [0; 1; 2] (Wrapped ParallelGraph (Graph [0; 2] [])));
    first [reflexivity | exact Hfour | exact Hindex].
Defined.

Lemma plain_graph_accepted_shape_witness :
  is_plain (Plain path3) = true
  ∧ closeness_vitality reversed (Plain path3) (Some 2) None (Some 4%float)
    = ([Iter (Plain path3);
        Subgraph (Plain path3) (list_to_set [0; 1; 2] ∖ {[2]});
        WienerIndex node_removed (Plain (Graph [0; 1] [(0, 1)])) None],
       Ok (PyFloat (4 - 1)%float))
  ∧ (closeness_vitality reversed (Plain path3) None None (Some 4%float)).2
    = Raise (UnboundLocalError "I")
  ∧ (closeness_vitality reversed (Plain path3) (Some 1) None (Some 4%float)).2
    = Ok (PyFloat (4 - infinity)%float).
Proof.
  split; [reflexivity|].
  destruct (plain_graph_accepted_shape (H := collaborators) reversed (Plain path3) None)
    as (Hshape & Hother & Hany); [reflexivity|].
  split_and!.
  - apply (Hshape 2 4%float [0; 1; 2] (Plain (Graph [0; 1] [(0, 1)])) 1%float);
      reflexivity.
  - apply Hother. by left.
  - exact (Hany 1 4%float).
Defined.

End Runs.

(** * Further properties of [closeness_vitality] *)

(** ** Arithmetic with an infinite Wiener index *)

Lemma infinity_minus (y : float) :
  (infinity - y)%float = infinity ∨ (infinity - y)%float = nan.
Proof.
  destruct (Prim2SF y) as [s|[]| |s m e] eqn:E.
  1, 2, 5: left; apply Prim2SF_inj; rewrite FloatAxioms.sub_spec, E; reflexivity.
  all: right; apply Prim2SF_inj; rewrite FloatAxioms.sub_spec, E; reflexivity.
Qed.

(** ** The adapter, class by class *)

Section Adapter_cases.
Context `{Collaborators}.
Variable order : arrival.


(** An instance of exactly one class of the chain. *)
Lemma unwrap_one_class G cls :
  (∀ c, isinstance G c = bool_decide (c = cls)) →
  unwrap G = ([ToNetworkx cls G], res_map Some (to_networkx cls G)).
Proof.
  intros Hone.
  pose proof (Hone ParallelMultiDiGraph) as E1.
  pose proof (Hone ParallelMultiGraph) as E2.
  pose proof (Hone ParallelDiGraph) as E3.
  pose proof (Hone ParallelGraph) as E4.
  unfold unwrap, rebind.
  destruct cls; vm_compute bool_decide in E1, E2, E3, E4;
    rewrite E1, E2, E3, E4;
    unfold call, mbind, Py_bind, mret, Py_ret; cbn [fst snd];
    destruct (to_networkx _ G); reflexivity.
Qed.

(** X2.  When the wrapper's conversion raises, the call raises that exception
    after the one conversion call and before anything else is called,
    whatever the other arguments. *)
Theorem conversion_error_propagates G cls e node weight wiener_index :
  (∀ c, isinstance G c = bool_decide (c = cls)) →
  to_networkx cls G = Raise e →
  closeness_vitality order G node weight wiener_index
  = ([ToNetworkx cls G], Raise e).
Proof.
  intros Hone He. unfold closeness_vitality. cbn [closeness_vitality_at].
  rewrite (bind_raise _ _ [ToNetworkx cls G] e); [reflexivity|].
  by rewrite (unwrap_one_class G cls Hone), He.
Qed.

(** X11.  In a call for one node on a wrapper, with the Wiener index
    supplied, the graph is converted although the conversion is never used:
    the node is removed from [G] itself and the Wiener index is taken of that
    subgraph of the wrapper. *)
Theorem single_node_on_wrapper G cls I v weight w nodes sub after :
  (∀ c, isinstance G c = bool_decide (c = cls)) →
  to_networkx cls G = Ok I →
  iter G = Ok nodes →
  subgraph G (list_to_set nodes ∖ {[v]}) = Ok sub →
  nx_wiener_index sub weight = Ok after →
  closeness_vitality order G (Some v) weight (Some w)
  = ([ToNetworkx cls G; Iter G; Subgraph G (list_to_set nodes ∖ {[v]});
      WienerIndex node_removed sub weight],
     Ok (PyFloat (w - after)%float)).
Proof.
  intros Hone HI Hn Hs Ha. unfold closeness_vitality.
  rewrite single_node_call.
  rewrite (bind_ok _ _ [ToNetworkx cls G] (Some I))
    by (by rewrite (unwrap_one_class G cls Hone), HI).
  by rewrite (single_node_returns G v weight w nodes sub after).
Qed.

End Adapter_cases.

(** ** Edge cases of the two branches *)

Section Edge_cases.
Context `{Collaborators}.
Variable order : arrival.

(** X6.  A node that is not in the graph is not rejected: [set(G) - {node}]
    is then all of [set(G)], and the call returns the Wiener index in use
    minus the Wiener index of the subgraph on every node of [G]. *)
Theorem absent_node_not_rejected G v weight wiener_index I W nodes sub after :
  (unwrap G).2 = Ok I →
  (whole_graph_wiener_index I weight wiener_index).2 = Ok W →
  iter G = Ok nodes →
  v ∉ nodes →
  subgraph G (list_to_set nodes) = Ok sub →
  nx_wiener_index sub weight = Ok after →
  (closeness_vitality order G (Some v) weight wiener_index).2
  = Ok (PyFloat (W - after)%float).
Proof.
  intros HI HW Hn Hv Hs Ha. unfold closeness_vitality.
  rewrite node_call, bind_outcome, HI, bind_outcome, HW.
  assert (list_to_set nodes ∖ {[v]} = (list_to_set nodes : gset Node)) as Hall.
  { apply set_eq. intros u.
    rewrite elem_of_difference, elem_of_list_to_set, elem_of_singleton.
    split; [by intros [? _] | intros Hu; split; [done | by intros ->]]. }
  rewrite (single_node_returns G v weight W nodes sub after); rewrite ?Hall; done.
Qed.

(** X7.  A graph without nodes, once unwrapped and with the Wiener index
    resolved, gives the empty mapping in any arrival order. *)
Theorem empty_graph_empty_mapping G weight wiener_index I W :
  (unwrap G).2 = Ok (Some I) →
  (whole_graph_wiener_index (Some I) weight wiener_index).2 = Ok W →
  iter I = Ok [] →
  (closeness_vitality order G None weight wiener_index).2 = Ok (PyDict []).
Proof.
  intros HI HW Hn. unfold closeness_vitality.
  rewrite all_nodes_call, bind_outcome, HI, bind_outcome, HW, bind_outcome.
  cbn [local mret Py_ret snd]. rewrite bind_outcome.
  change (call (Iter I) (iter I)).2 with (iter I). rewrite Hn.
  rewrite bind_outcome. unfold Parallel, delayed_tasks. cbn [map snd].
  pose proof (arrive_perm order (Node * Py (Node * pyval)) []) as Hperm.
  apply Permutation_nil_r in Hperm. rewrite Hperm. reflexivity.
Qed.

(** X8.  When the whole-graph Wiener index in use is positive infinity (the
    graph is not connected to begin with), no node gets a finite vitality or
    negative infinity: the value returned is positive infinity or NaN. *)
Theorem infinite_index_vitality G v weight wiener_index I nodes sub after :
  (unwrap G).2 = Ok I →
  (whole_graph_wiener_index I weight wiener_index).2 = Ok infinity →
  iter G = Ok nodes →
  subgraph G (list_to_set nodes ∖ {[v]}) = Ok sub →
  nx_wiener_index sub weight = Ok after →
  (closeness_vitality order G (Some v) weight wiener_index).2 = Ok (PyFloat infinity)
  ∨ (closeness_vitality order G (Some v) weight wiener_index).2 = Ok (PyFloat nan).
Proof.
  intros HI HW Hn Hs Ha. unfold closeness_vitality.
  rewrite node_call, bind_outcome, HI, bind_outcome, HW.
  rewrite (single_node_returns G v weight infinity nodes sub after) by assumption.
  cbn [snd]. destruct (infinity_minus after) as [-> | ->]; [by left | by right].
Qed.

(** X9.  With the adapter's [I] bound, supplying the Wiener index that line 74
    would compute changes one thing only: that call of [nx.wiener_index] is
    not made.  The outcome and every other call are the same. *)
Theorem supplied_index_saves_one_call G node weight I W :
  (unwrap G).2 = Ok (Some I) →
  nx_wiener_index I weight = Ok W →
  (closeness_vitality order G node weight (Some W)).2
  = (closeness_vitality order G node weight None).2
  ∧ ∃ rest,
      (closeness_vitality order G node weight (Some W)).1 = (unwrap G).1 ++ rest
      ∧ (closeness_vitality order G node weight None).1
        = (unwrap G).1 ++ WienerIndex whole_graph I weight :: rest.
Proof.
  intros HI HW. unfold closeness_vitality.
  destruct (unwrap G) as [t0 r0] eqn:HG. cbn [snd] in HI. subst r0. cbn [fst].
  destruct node as [v|].
  - rewrite !node_call, HG.
    rewrite !(bind_ok _ _ t0 (Some I)) by reflexivity.
    rewrite (bind_ok _ _ [] W) by reflexivity.
    rewrite (bind_ok _ _ [WienerIndex whole_graph I weight] W)
      by (cbn [whole_graph_wiener_index local]; by rewrite (bind_ok _ _ [] I), HW).
    split; [reflexivity|]. by exists (single_node G v weight W).1.
  - rewrite !all_nodes_call, HG.
    rewrite !(bind_ok _ _ t0 (Some I)) by reflexivity.
    rewrite (bind_ok _ _ [] W) by reflexivity.
    rewrite (bind_ok _ _ [WienerIndex whole_graph I weight] W)
      by (cbn [whole_graph_wiener_index local]; by rewrite (bind_ok _ _ [] I), HW).
    split; [reflexivity|]. eexists. split; reflexivity.
Qed.

End Edge_cases.

(** ** The items of the mapping and the outcome of a batch *)

Section Items.
Context `{Collaborators}.
Context {V : Type}.
Implicit Types (d items : list (Node * V)) (k : Node) (x : V).

Lemma dict_set_items d k x :
  (∀ y, (k, y) ∈ d → y = x) →
  ∀ p, p ∈ dict_set d k x ↔ p ∈ d ∨ p = (k, x).
Proof.
  induction d as [|[k' x'] d IH]; intros Hsame p; simpl.
  - rewrite list_elem_of_singleton, elem_of_nil. tauto.
  - destruct (decide (k' = k)) as [->|Hne].
    + rewrite (Hsame x') by apply list_elem_of_here.
      split; [by left | intros [?| ->]; [done | apply list_elem_of_here]].
    + rewrite !elem_of_cons, IH; [tauto|].
      intros y Hy. apply Hsame. by apply list_elem_of_further.
Qed.

(** Items that agree on the value of every key are kept by [dict], up to
    order and repetition. *)
Lemma dict_from_items d items :
  (∀ a b, a ∈ d ++ items → b ∈ d ++ items → a.1 = b.1 → a = b) →
  ∀ p, p ∈ foldl (λ d kx, dict_set d kx.1 kx.2) d items ↔ p ∈ d ∨ p ∈ items.
Proof.
  revert d. induction items as [|[k x] items IH]; intros d Hagree p; simpl.
  - rewrite elem_of_nil. tauto.
  - assert (∀ q, q ∈ dict_set d k x ↔ q ∈ d ∨ q = (k, x)) as Hset.
    { apply dict_set_items. intros y Hy.
      assert ((k, y) = (k, x)) as [= ->]; [|done].
      apply Hagree; [| |done]; rewrite elem_of_app, elem_of_cons; auto. }
    rewrite IH, Hset, elem_of_cons; [tauto|].
    intros a b Ha Hb. apply Hagree.
    + rewrite elem_of_app, Hset in Ha. rewrite elem_of_app, elem_of_cons. tauto.
    + rewrite elem_of_app, Hset in Hb. rewrite elem_of_app, elem_of_cons. tauto.
Qed.

Lemma dict_items items :
  (∀ a b, a ∈ items → b ∈ items → a.1 = b.1 → a = b) →
  ∀ p, p ∈ dict items ↔ p ∈ items.
Proof.
  intros Hagree p. unfold dict. rewrite dict_from_items.
  - rewrite elem_of_nil. tauto.
  - exact Hagree.
Qed.

End Items.

Section Collect.
Context {A T : Type}.
Implicit Types (outcome : T → res A) (finished : list T).

Lemma collect_values outcome finished result :
  collect (map outcome finished) = Ok result →
  ∀ a, a ∈ result ↔ ∃ t, t ∈ finished ∧ outcome t = Ok a.
Proof.
  revert result. induction finished as [|t finished IH]; intros result; simpl.
  - intros [= <-] a. rewrite elem_of_nil. split; [done|].
    by intros (t & Ht%elem_of_nil & _).
  - destruct (outcome t) as [b|e] eqn:Ht; [|done].
    destruct (collect _) as [rest|e]; [|done]. simpl. intros [= <-] a.
    rewrite elem_of_cons, (IH rest eq_refl). split.
    + intros [->|(t' & Hin & Ha)].
      * exists t. split; [apply list_elem_of_here | done].
      * exists t'. split; [by apply list_elem_of_further | done].
    + intros (t' & [->|Hin]%elem_of_cons & Ha).
      * left. congruence.
      * right. by exists t'.
Qed.

Lemma collect_raises outcome finished t e :
  t ∈ finished → outcome t = Raise e →
  ∃ t' e', t' ∈ finished ∧ outcome t' = Raise e'
           ∧ collect (map outcome finished) = Raise e'.
Proof.
  induction finished as [|t0 finished IH]; [by intros ?%elem_of_nil|].
  intros Hin He. simpl. destruct (outcome t0) as [b|e0] eqn:H0.
  - apply elem_of_cons in Hin as [->|Hin]; [congruence|].
    destruct (IH Hin He) as (t' & e' & Hin' & He' & ->).
    exists t', e'. split_and!; [by apply list_elem_of_further | done | done].
  - exists t0, e0. split_and!; [apply list_elem_of_here | done | done].
Qed.

End Collect.

(** ** The batch of an all-nodes call *)

Section Batch_outcome.
Context `{Collaborators}.
Variable order : arrival.
Implicit Types (vitality : Node → Py pyval) (nodes : list Node).

Lemma task_in vitality nodes (t : Node * Py (Node * pyval)) :
  t ∈ arrive order _ (delayed_tasks vitality nodes)
  ↔ ∃ v, v ∈ nodes ∧ t = (v, x ← vitality v; mret (v, x)).
Proof.
  rewrite (arrive_perm order _ (delayed_tasks vitality nodes)).
  unfold delayed_tasks. split.
  - intros (v & -> & Hv)%list_elem_of_fmap. by exists v.
  - intros (v & Hv & ->). apply list_elem_of_fmap. by exists v.
Qed.

Lemma task_returns vitality v (a : Node * pyval) :
  (x ← vitality v; mret (v, x)).2 = Ok a ↔ a.1 = v ∧ (vitality v).2 = Ok a.2.
Proof.
  rewrite bind_outcome. destruct a as [u y], (vitality v).2 as [x|e]; cbn [fst snd].
  - change (@mret Py _ _ (v, x)).2 with (@Ok (Node * pyval) (v, x)). split.
    + by intros [= -> ->].
    + by intros [-> [= ->]].
  - split; [done | by intros [_ ?]].
Qed.

Lemma task_raises vitality v e :
  (x ← vitality v; mret (v, x)).2 = Raise e ↔ (vitality v).2 = Raise e.
Proof.
  rewrite bind_outcome. destruct (vitality v).2 as [x|e0].
  - change (@mret Py _ _ (v, x)).2 with (@Ok (Node * pyval) (v, x)).
    split; intros [=].
  - split; by intros [= ->].
Qed.

(** The results of a batch that returns: one pair per node, with the value of
    that node's call. *)
Lemma batch_values vitality nodes result :
  (Parallel order (delayed_tasks vitality nodes)).2 = Ok result →
  ∀ v x, (v, x) ∈ result ↔ v ∈ nodes ∧ (vitality v).2 = Ok x.
Proof.
  intros Hp v x.
  rewrite (collect_values (λ t : Node * Py (Node * pyval), t.2.2) _ _ Hp). split.
  - intros (t & (u & Hu & ->)%task_in & [Hv Hx]%task_returns).
    cbn [fst snd] in Hv, Hx. by subst u.
  - intros [Hv Hx]. exists (v, y ← vitality v; mret (v, y)). split.
    + apply task_in. by exists v.
    + by apply task_returns.
Qed.

Lemma batch_agrees vitality nodes result :
  (Parallel order (delayed_tasks vitality nodes)).2 = Ok result →
  ∀ a b, a ∈ result → b ∈ result → a.1 = b.1 → a = b.
Proof.
  intros Hp [v x] [u y] Ha Hb. cbn [fst]. intros ->.
  apply (batch_values _ _ _ Hp) in Ha as [_ Hx].
  apply (batch_values _ _ _ Hp) in Hb as [_ Hy]. congruence.
Qed.

Lemma batch_every_task_returned vitality nodes result :
  (Parallel order (delayed_tasks vitality nodes)).2 = Ok result →
  ∀ v, v ∈ nodes → ∃ x, (vitality v).2 = Ok x.
Proof.
  intros Hp v Hv. destruct (vitality v).2 as [x|e] eqn:Hx; [by exists x|].
  destruct (collect_raises (λ t : Node * Py (Node * pyval), t.2.2)
              (arrive order _ (delayed_tasks vitality nodes))
              (v, y ← vitality v; mret (v, y)) e) as (t' & e' & _ & _ & Hc).
  - apply task_in. by exists v.
  - by apply task_raises.
  - assert ((Parallel order (delayed_tasks vitality nodes)).2 = Raise e') as Hr
      by exact Hc.
    congruence.
Qed.

Lemma batch_fails vitality nodes v e :
  v ∈ nodes → (vitality v).2 = Raise e →
  ∃ v' e', v' ∈ nodes ∧ (vitality v').2 = Raise e'
           ∧ (Parallel order (delayed_tasks vitality nodes)).2 = Raise e'.
Proof.
  intros Hv He.
  destruct (collect_raises (λ t : Node * Py (Node * pyval), t.2.2)
              (arrive order _ (delayed_tasks vitality nodes))
              (v, y ← vitality v; mret (v, y)) e)
    as (t' & e' & (v' & Hv' & ->)%task_in & He'%task_raises & Hc).
  - apply task_in. by exists v.
  - by apply task_raises.
  - by exists v', e'.
Qed.

(** The outcome of an all-nodes call once the adapter, the Wiener index and the
    iteration of [I] have succeeded: that of the batch. *)
Lemma all_nodes_batch depth G weight wiener_index I W nodes :
  (unwrap G).2 = Ok (Some I) →
  (whole_graph_wiener_index (Some I) weight wiener_index).2 = Ok W →
  iter I = Ok nodes →
  (closeness_vitality_at order (S depth) G None weight wiener_index).2
  = res_map (λ result, PyDict (dict result))
      (Parallel order
         (delayed_tasks
            (λ v, closeness_vitality_at order depth I (Some v) weight (Some W))
            nodes)).2.
Proof.
  intros HI HW Hn.
  rewrite all_nodes_call, bind_outcome, HI, bind_outcome, HW, bind_outcome.
  cbn [local mret Py_ret snd]. rewrite bind_outcome.
  change (call (Iter I) (iter I)).2 with (iter I). rewrite Hn.
  rewrite bind_outcome. by destruct (Parallel order _).2.
Qed.

(** A call for one node on a plain graph, at any depth. *)
Lemma plain_node_call depth I v weight W nodes sub after :
  is_plain I = true →
  iter I = Ok nodes →
  subgraph I (list_to_set nodes ∖ {[v]}) = Ok sub →
  nx_wiener_index sub weight = Ok after →
  closeness_vitality_at order (S depth) I (Some v) weight (Some W)
  = ([Iter I; Subgraph I (list_to_set nodes ∖ {[v]});
      WienerIndex node_removed sub weight],
     Ok (PyFloat (W - after)%float)).
Proof.
  intros Hp Hn Hs Ha.
  rewrite single_node_call, (unwrap_plain I Hp).
  rewrite (bind_ok _ _ [] None) by reflexivity.
  by rewrite (single_node_returns I v weight W nodes sub after).
Qed.

(** X4.  The mapping of an all-nodes call sends every node [v] of the
    unwrapped graph [I] to the Wiener index in use minus the Wiener index of
    [I] without [v], and holds nothing else, in any arrival order. *)
Theorem all_nodes_values G weight wiener_index I W nodes
    (sub : Node → Obj) (after : Node → float) :
  (unwrap G).2 = Ok (Some I) →
  is_plain I = true →
  (whole_graph_wiener_index (Some I) weight wiener_index).2 = Ok W →
  iter I = Ok nodes →
  (∀ v, v ∈ nodes → subgraph I (list_to_set nodes ∖ {[v]}) = Ok (sub v)) →
  (∀ v, v ∈ nodes → nx_wiener_index (sub v) weight = Ok (after v)) →
  ∃ d,
    (closeness_vitality order G None weight wiener_index).2 = Ok (PyDict d)
    ∧ ∀ v x, (v, x) ∈ d ↔ v ∈ nodes ∧ x = PyFloat (W - after v)%float.
Proof.
  intros HI Hp HW Hn Hs Ha. unfold closeness_vitality.
  rewrite (all_nodes_batch 1 G weight wiener_index I W nodes HI HW Hn).
  set (vitality := λ v, closeness_vitality_at order 1 I (Some v) weight (Some W)).
  assert (∀ v, v ∈ nodes → (vitality v).2 = Ok (PyFloat (W - after v)%float)) as Hv.
  { intros v Hin. unfold vitality.
    by rewrite (plain_node_call 0 I v weight W nodes (sub v) (after v)); auto. }
  destruct (collect_returns (λ t : Node * Py (Node * pyval), t.2.2)
              (arrive order _ (delayed_tasks vitality nodes))) as [result Hr].
  { apply Forall_forall. intros t (v & Hin & ->)%task_in.
    exists (v, PyFloat (W - after v)%float). apply task_returns. auto. }
  assert ((Parallel order (delayed_tasks vitality nodes)).2 = Ok result) as Hpar
    by exact Hr.
  exists (dict result). rewrite Hpar. split; [reflexivity|]. intros v x.
  rewrite (dict_items result (batch_agrees _ _ _ Hpar)).
  rewrite (batch_values _ _ _ Hpar). split.
  - intros [Hin Hx]. rewrite (Hv v Hin) in Hx. by injection Hx as <-.
  - intros [Hin ->]. auto.
Qed.

(** X10.  The calls of a successful all-nodes call, in full: the conversions
    of the adapter, the whole-graph Wiener index when it was left out, one
    iteration of [I], then one task per node of [I], in some order; each task
    iterates [I] again, takes the subgraph without its node and computes one
    Wiener index. *)
Theorem all_nodes_footprint G weight wiener_index I W nodes
    (sub : Node → Obj) (after : Node → float) :
  (unwrap G).2 = Ok (Some I) →
  is_plain I = true →
  (whole_graph_wiener_index (Some I) weight wiener_index).2 = Ok W →
  iter I = Ok nodes →
  (∀ v, v ∈ nodes → subgraph I (list_to_set nodes ∖ {[v]}) = Ok (sub v)) →
  (∀ v, v ∈ nodes → nx_wiener_index (sub v) weight = Ok (after v)) →
  ∃ tasks,
    (closeness_vitality order G None weight wiener_index).1
    = (unwrap G).1 ++ (whole_graph_wiener_index (Some I) weight wiener_index).1
        ++ Iter I :: tasks
    ∧ tasks ≡ₚ map (λ v, Task v [Iter I; Subgraph I (list_to_set nodes ∖ {[v]});
                                 WienerIndex node_removed (sub v) weight]) nodes.
Proof.
  intros HI Hp HW Hn Hs Ha. unfold closeness_vitality.
  set (vitality := λ v, closeness_vitality_at order 1 I (Some v) weight (Some W)).
  exists (Parallel order (delayed_tasks vitality nodes)).1. split.
  - rewrite all_nodes_call.
    destruct (unwrap G) as [t0 r0]. cbn [snd] in HI. subst r0.
    rewrite (bind_ok _ _ t0 (Some I)) by reflexivity.
    destruct (whole_graph_wiener_index (Some I) weight wiener_index) as [t1 r1].
    cbn [snd] in HW. subst r1.
    rewrite (bind_ok _ _ t1 W) by reflexivity.
    rewrite (bind_ok _ _ [] I) by reflexivity.
    rewrite (bind_ok _ _ [Iter I] nodes) by (unfold call; by rewrite Hn).
    fold vitality. rewrite bind_calls. cbn [fst app].
    destruct (Parallel order (delayed_tasks vitality nodes)).2;
      cbn [mret Py_ret fst]; by rewrite app_nil_r.
  - unfold Parallel. cbn [fst].
    rewrite (arrive_perm order _ (delayed_tasks vitality nodes)).
    unfold delayed_tasks. rewrite map_map. cbn [fst snd].
    match goal with |- ?l ≡ₚ ?r => assert (l = r) as ->; [|reflexivity] end.
    apply map_ext_in. intros v Hin%list_elem_of_In.
    unfold vitality. rewrite bind_calls.
    rewrite (plain_node_call 0 I v weight W nodes (sub v) (after v)); auto.
Qed.

End Batch_outcome.

(** ** Two arrival orders *)

Section Two_orders.
Context `{Collaborators}.
Variables order1 order2 : arrival.

(** A call for one node runs no batch: the arrival order plays no part. *)
Lemma node_call_any_order depth G v weight wiener_index :
  closeness_vitality_at order1 (S depth) G (Some v) weight wiener_index
  = closeness_vitality_at order2 (S depth) G (Some v) weight wiener_index.
Proof. reflexivity. Qed.

(** X5.  The arrival order of the per-node results changes neither whether
    an all-nodes call returns nor what the mapping holds: if the call returns
    under one order it returns under any other, with the same items. *)
Theorem arrival_order_irrelevant G weight wiener_index d1 :
  (closeness_vitality order1 G None weight wiener_index).2 = Ok (PyDict d1) →
  ∃ d2,
    (closeness_vitality order2 G None weight wiener_index).2 = Ok (PyDict d2)
    ∧ ∀ p, p ∈ d1 ↔ p ∈ d2.
Proof.
  unfold closeness_vitality.
  intros (I & W & nodes & result1 & HI & HW & Hn & Hp1 & Hd1)%all_nodes_outcome.
  injection Hd1 as ->.
  set (vitality := λ v, closeness_vitality_at order1 1 I (Some v) weight (Some W))
    in Hp1.
  rewrite (all_nodes_batch order2 1 G weight wiener_index I W nodes HI HW Hn).
  change (λ v, closeness_vitality_at order2 1 I (Some v) weight (Some W))
    with vitality.
  destruct (collect_returns (λ t : Node * Py (Node * pyval), t.2.2)
              (arrive order2 _ (delayed_tasks vitality nodes))) as [result2 Hr].
  { apply Forall_forall. intros t (v & Hin & ->)%task_in.
    destruct (batch_every_task_returned order1 vitality nodes result1 Hp1 v Hin)
      as [x Hx].
    exists (v, x). by apply task_returns. }
  assert ((Parallel order2 (delayed_tasks vitality nodes)).2 = Ok result2) as Hp2
    by exact Hr.
  exists (dict result2). rewrite Hp2. split; [reflexivity|]. intros [v x].
  rewrite (dict_items result1 (batch_agrees order1 _ _ _ Hp1)).
  rewrite (dict_items result2 (batch_agrees order2 _ _ _ Hp2)).
  by rewrite (batch_values order1 _ _ _ Hp1), (batch_values order2 _ _ _ Hp2).
Qed.

End Two_orders.

(** ** The further properties at concrete graphs *)

Section Further_runs.
Import Model.

Lemma three_nodes (P : nat → Prop) : P 0 → P 1 → P 2 → ∀ v, v ∈ [0; 1; 2] → P v.
Proof.
  intros H0 H1 H2 v. rewrite !elem_of_cons, elem_of_nil.
  by intros [->|[->|[->|[]]]].
Qed.

Lemma only_ParallelGraph (g : graph) :
  ∀ c, instance_of (Wrapped ParallelGraph g) c = bool_decide (c = ParallelGraph).
Proof. by intros []. Qed.


Lemma conversion_error_propagates_witness :
  let G := Wrapped ParallelGraph cycle3 in
  let e := LibraryError "to_networkx" in
  (∀ c, isinstance (Collaborators := failing_conversion) G c
        = bool_decide (c = ParallelGraph))
  ∧ to_networkx (Collaborators := failing_conversion) ParallelGraph G = Raise e
  ∧ closeness_vitality (H := failing_conversion) in_order G None None None
    = ([ToNetworkx (H := failing_conversion) ParallelGraph G], Raise e).
Proof.
  split_and!; [apply only_ParallelGraph | reflexivity |].
  apply (conversion_error_propagates (H := failing_conversion) in_order
           (Wrapped ParallelGraph cycle3) ParallelGraph
           (LibraryError "to_networkx") None None None).
  - apply only_ParallelGraph.
  - reflexivity.
Defined.

Lemma single_node_on_wrapper_witness :
  let G := Wrapped ParallelGraph cycle3 in
  let sub := Wrapped ParallelGraph (Graph [1; 2] [(1, 2)]) in
  (∀ c, isinstance G c = bool_decide (c = ParallelGraph))
  ∧ to_networkx ParallelGraph G = Ok (Plain cycle3)
  ∧ iter G = Ok [0; 1; 2]
  ∧ subgraph G (list_to_set [0; 1; 2] ∖ {[0]}) = Ok sub
  ∧ nx_wiener_index sub None = Ok 1%float
  ∧ closeness_vitality in_order G (Some 0) None (Some 3%float)
    = ([ToNetworkx ParallelGraph G; Iter G;
        Subgraph G (list_to_set [0; 1; 2] ∖ {[0]});
        WienerIndex node_removed sub None],
       Ok (PyFloat (3 - 1)%float)).
Proof.
  split_and!; [apply only_ParallelGraph | reflexivity..|].
  apply (single_node_on_wrapper (H := collaborators) in_order
           (Wrapped ParallelGraph cycle3) ParallelGraph (Plain cycle3) 0 None 3%float
           [0; 1; 2] (Wrapped ParallelGraph (Graph [1; 2] [(1, 2)])) 1%float);
    first [apply only_ParallelGraph | reflexivity].
Defined.

Lemma absent_node_not_rejected_witness :
  let G := Plain cycle3 in
  (unwrap G).2 = Ok None
  ∧ (whole_graph_wiener_index None None (Some 3%float)).2 = Ok 3%float
  ∧ iter G = Ok [0; 1; 2]
  ∧ (7 ∉ [0; 1; 2])
  ∧ subgraph G (list_to_set [0; 1; 2]) = Ok (Plain cycle3)
  ∧ nx_wiener_index (Plain cycle3) None = Ok 3%float
  ∧ (closeness_vitality in_order G (Some 7) None (Some 3%float)).2
    = Ok (PyFloat (3 - 3)%float).
Proof.
  assert (7 ∉ [0; 1; 2]) as Habsent
    by (by apply (bool_decide_unpack (7 ∉ [0; 1; 2]))).
  split_and!.
  1-3, 5-6: reflexivity.
  1: exact Habsent.
  apply (absent_node_not_rejected (H := collaborators) in_order (Plain cycle3) 7
           None (Some 3%float) None 3%float [0; 1; 2] (Plain cycle3) 3%float);
    first [reflexivity | exact Habsent].
Defined.

Lemma empty_graph_empty_mapping_witness :
  let G := Wrapped ParallelGraph null in
  (unwrap G).2 = Ok (Some (Plain null))
  ∧ (whole_graph_wiener_index (Some (Plain null)) None (Some 0%float)).2 = Ok 0%float
  ∧ iter (Plain null) = Ok []
  ∧ (closeness_vitality reversed G None None (Some 0%float)).2 = Ok (PyDict []).
Proof.
  split_and!; [reflexivity..|].
  apply (empty_graph_empty_mapping (H := collaborators) reversed
           (Wrapped ParallelGraph null) None (Some 0%float) (Plain null) 0%float);
    reflexivity.
Defined.

Lemma infinite_index_vitality_witness :
  let G := Wrapped ParallelGraph isolated3 in
  let sub := Wrapped ParallelGraph (Graph [1; 2] []) in
  (unwrap G).2 = Ok (Some (Plain isolated3))
  ∧ (whole_graph_wiener_index (Some (Plain isolated3)) None None).2 = Ok infinity
  ∧ iter G = Ok [0; 1; 2]
  ∧ subgraph G (list_to_set [0; 1; 2] ∖ {[0]}) = Ok sub
  ∧ nx_wiener_index sub None = Ok infinity
  ∧ ((closeness_vitality in_order G (Some 0) None None).2 = Ok (PyFloat infinity)
     ∨ (closeness_vitality in_order G (Some 0) None None).2 = Ok (PyFloat nan)).
Proof.
  split_and!; [reflexivity..|].
  apply (infinite_index_vitality (H := collaborators) in_order
           (Wrapped ParallelGraph isolated3) 0 None None (Some (Plain isolated3))
           [0; 1; 2] (Wrapped ParallelGraph (Graph [1; 2] [])) infinity);
    reflexivity.
Defined.

Lemma supplied_index_saves_one_call_witness :
  let G := Wrapped ParallelGraph cycle3 in
  (unwrap G).2 = Ok (Some (Plain cycle3))
  ∧ nx_wiener_index (Plain cycle3) None = Ok 3%float
  ∧ (closeness_vitality in_order G None None (Some 3%float)).2
    = (closeness_vitality in_order G None None None).2
  ∧ ∃ rest,
      (closeness_vitality in_order G None None (Some 3%float)).1
      = (unwrap G).1 ++ rest
      ∧ (closeness_vitality in_order G None None None).1
        = (unwrap G).1 ++ WienerIndex whole_graph (Plain cycle3) None :: rest.
Proof.
  split; [reflexivity|]. split; [reflexivity|].
  apply (supplied_index_saves_one_call (H := collaborators) in_order
           (Wrapped ParallelGraph cycle3) None None (Plain cycle3) 3%float);
    reflexivity.
Defined.

Lemma all_nodes_values_witness :
  let G := Wrapped ParallelGraph path3 in
  (unwrap G).2 = Ok (Some (Plain path3))
  ∧ is_plain (Plain path3) = true
  ∧ (whole_graph_wiener_index (Some (Plain path3)) None None).2 = Ok 4%float
  ∧ iter (Plain path3) = Ok [0; 1; 2]
  ∧ (∀ v, v ∈ [0; 1; 2] →
          subgraph (Plain path3) (list_to_set [0; 1; 2] ∖ {[v]}) = Ok (path3_without v))
  ∧ (∀ v, v ∈ [0; 1; 2] → nx_wiener_index (path3_without v) None = Ok (path3_after v))
  ∧ ∃ d,
      (closeness_vitality reversed G None None None).2 = Ok (PyDict d)
      ∧ ∀ v x, (v, x) ∈ d ↔ v ∈ [0; 1; 2] ∧ x = PyFloat (4 - path3_after v)%float.
Proof.
  assert (∀ v, v ∈ [0; 1; 2] →
               subgraph (Plain path3) (list_to_set [0; 1; 2] ∖ {[v]})
               = Ok (path3_without v)) as Hsub by done.
  assert (∀ v, v ∈ [0; 1; 2] →
               nx_wiener_index (path3_without v) None = Ok (path3_after v)) as Hafter
    by (by apply three_nodes).
  split_and!.
  1-4: reflexivity.
  1: exact Hsub.
  1: exact Hafter.
  apply (all_nodes_values (H := collaborators) reversed
           (Wrapped ParallelGraph path3) None None (Plain path3) 4%float [0; 1; 2]
           path3_without path3_after);
    first [reflexivity | exact Hsub | exact Hafter].
Defined.

Lemma arrival_order_irrelevant_witness :
  let G := Wrapped ParallelGraph cycle3 in
  let d1 := [(0, two); (1, two); (2, two)] in
  (closeness_vitality in_order G None None None).2 = Ok (PyDict d1)
  ∧ ∃ d2,
      (closeness_vitality reversed G None None None).2 = Ok (PyDict d2)
      ∧ ∀ p, p ∈ d1 ↔ p ∈ d2.
Proof.
  split; [reflexivity|].
  apply (arrival_order_irrelevant (H := collaborators) in_order reversed
           (Wrapped ParallelGraph cycle3) None None).
  reflexivity.
Defined.

Lemma all_nodes_footprint_witness :
  let G := Wrapped ParallelGraph cycle3 in
  let I := Plain cycle3 in
  (unwrap G).2 = Ok (Some I)
  ∧ is_plain I = true
  ∧ (whole_graph_wiener_index (Some I) None None).2 = Ok 3%float
  ∧ iter I = Ok [0; 1; 2]
  ∧ (∀ v, v ∈ [0; 1; 2] →
          subgraph I (list_to_set [0; 1; 2] ∖ {[v]}) = Ok (cycle3_without v))
  ∧ (∀ v, v ∈ [0; 1; 2] → nx_wiener_index (cycle3_without v) None = Ok 1%float)
  ∧ ∃ tasks,
      (closeness_vitality reversed G None None None).1
      = (unwrap G).1 ++ (whole_graph_wiener_index (Some I) None None).1
          ++ Iter I :: tasks
      ∧ tasks ≡ₚ map (λ v, Task v [Iter I;
                                   Subgraph I (list_to_set [0; 1; 2] ∖ {[v]});
                                   WienerIndex node_removed (cycle3_without v) None])
                     [0; 1; 2].
Proof.
  assert (∀ v, v ∈ [0; 1; 2] →
               subgraph (Plain cycle3) (list_to_set [0; 1; 2] ∖ {[v]})
               = Ok (cycle3_without v)) as Hsub by done.
  assert (∀ v, v ∈ [0; 1; 2] →
               nx_wiener_index (cycle3_without v) None = Ok 1%float) as Hafter
    by (by apply three_nodes).
  split_and!.
  1-4: reflexivity.
  1: exact Hsub.
  1: exact Hafter.
  apply (all_nodes_footprint (H := collaborators) reversed
           (Wrapped ParallelGraph cycle3) None None (Plain cycle3) 3%float [0; 1; 2]
           cycle3_without (λ _, 1%float));
    first [reflexivity | exact Hsub | exact Hafter].
Defined.

End Further_runs.

(** ** The fan-out of an all-nodes call *)

Section Collect_first.
Context {A T : Type}.
Implicit Types (outcome : T → res A) (finished : list T).


End Collect_first.

Section Fan_out.
Context `{Collaborators}.
Variable order : arrival.










End Fan_out.

(** ** The fan-out at concrete graphs *)

Section Fan_out_runs.
Import Model.



End Fan_out_runs.
